(** * The Pose Vis extension contract

    A shallow embedding of [devices/webcam/pose_vis/extension.py]: the
    result holder [ExtensionResult], the abstract contract
    [PoseVisExtensionBase] and the identity-carrying [PoseVisExtension].

    The file declares classes and almost no algorithm, so what there is to
    verify is what the Python object model does with these declarations:
    which classes can be instantiated, how a name resolves on an instance
    and on a class, and what each method body does to the store.  The
    first part of the development is therefore a small model of that
    fragment of Python (single inheritance, [abc.ABCMeta],
    [@abstractmethod], [@classmethod], [@dataclass], instance
    dictionaries); the second part transcribes the three classes; the
    third states and proves their properties. *)

From Stdlib Require Import ZArith.
From stdpp Require Import gmap strings list fin_maps.

Open Scope string_scope.

(** ** Values, objects and the store *)

(** Objects live in a store and are referred to by location, so that two
    references to one object alias, as they do in Python. *)
Abbreviation loc := positive (only parsing).

(** The exceptions this fragment can raise. *)
Inductive exn :=
  | TypeError
  | AttributeError
  | NotImplementedError.

(** Python values.  [int] is unbounded, hence [Z].  [VRef] is a reference
    to an instance in the store (an extension, an [ExtensionResult], a
    frame, a parser, a parsed-arguments namespace); [VCls] is a class
    object, named. *)
Inductive value :=
  | VNone
  | VBool (b : bool)
  | VInt (z : Z)
  | VStr (s : string)
  | VRef (l : loc)
  | VCls (name : string).

(** An instance: the name of its class and its [__dict__]. *)
Record object := Object {
  obj_class : string;
  obj_dict : gmap string value
}.

(** How a call ends. *)
Inductive outcome :=
  | Returned (v : value)
  | Raised (e : exn).

(** A function body receives all its positional arguments, receiver
    first, and the store; it yields an outcome and the store it leaves. *)
Definition body := list value → gmap loc object → outcome * gmap loc object.

(** [def] under a class is an instance method; [@classmethod] makes it a
    class method. *)
Inductive kind :=
  | InstanceMethod
  | ClassMethod.

(** A function defined in a class body.  [is_abstract] is the
    [__isabstractmethod__] flag that [@abstractmethod] sets, and that
    [classmethod] forwards from the function it wraps. *)
Record method := Method {
  is_abstract : bool;
  m_kind : kind;
  m_params : list string;
  m_body : body
}.

(** What a class namespace binds a name to: a function, or a plain value. *)
Inductive member :=
  | MMethod (f : method)
  | MAttr (v : value).

(** A class: its name, its single base ([None] stands for [object]),
    whether [ABCMeta] is declared as its metaclass, its namespace, and
    the names it annotates without binding them.  The source uses single
    inheritance only; hooks such as [__new__], [__getattr__],
    [__setattr__], [__slots__] and descriptors other than functions and
    class methods do not occur in it and are not modelled. *)
#[warnings="-register-all"]
Inductive class := Class {
  cls_name : string;
  cls_parent : option class;
  cls_abcmeta : bool;
  cls_namespace : gmap string member;
  cls_annotations : list string
}.

(** ** Name resolution *)

(** Look a name up along the method resolution order: the class itself,
    then its base, and so on up to [object]. *)
Fixpoint mro_lookup (c : class) (name : string) : option member :=
  match c with
  | Class _ parent _ ns _ =>
      match ns !! name with
      | Some m => Some m
      | None =>
          match parent with
          | Some p => mro_lookup p name
          | None => None
          end
      end
  end.

(** The metaclass is inherited. *)
Fixpoint uses_abcmeta (c : class) : bool :=
  match c with
  | Class _ parent meta _ _ =>
      meta || match parent with
              | Some p => uses_abcmeta p
              | None => false
              end
  end.

(** [getattr(value, "__isabstractmethod__", False)]. *)
Definition member_abstract (m : member) : bool :=
  match m with
  | MMethod f => is_abstract f
  | MAttr _ => false
  end.

(** [getattr(getattr(cls, name, None), "__isabstractmethod__", False)]. *)
Definition resolves_abstract (c : class) (name : string) : bool :=
  match mro_lookup c name with
  | Some m => member_abstract m
  | None => false
  end.

(** [ABCMeta.__new__]: the abstract names of a class are the names its own
    namespace binds to something abstract, together with the abstract
    names of its base that still resolve, on the new class, to something
    abstract.  A class whose metaclass is not [ABCMeta] gets no
    [__abstractmethods__]. *)
Fixpoint abstractmethods (c : class) : gset string :=
  match c with
  | Class _ parent _ ns _ =>
      if uses_abcmeta c then
        dom (filter (λ kv, member_abstract kv.2 = true) ns)
        ∪ match parent with
          | Some p => filter (λ name, resolves_abstract c name = true)
                             (abstractmethods p)
          | None => ∅
          end
      else ∅
  end.

(** ** Attribute access *)

(** What an attribute access yields: a plain value, or a callable with
    the arguments the access has already bound (the instance for a bound
    method, the class for a class method, nothing for a function reached
    through the class). *)
Inductive attr :=
  | AValue (v : value)
  | ACallable (f : method) (bound : list value).

(** A class member reached through an instance whose class is named
    [cname]: a function is bound to the instance, a class method to the
    instance's class. *)
Definition bind_instance (cname : string) (self : value) (m : member) : attr :=
  match m with
  | MAttr v => AValue v
  | MMethod f =>
      match m_kind f with
      | InstanceMethod => ACallable f [self]
      | ClassMethod => ACallable f [VCls cname]
      end
  end.

(** A class member reached through the class [c] itself. *)
Definition bind_class (c : class) (m : member) : attr :=
  match m with
  | MAttr v => AValue v
  | MMethod f =>
      match m_kind f with
      | InstanceMethod => ACallable f []
      | ClassMethod => ACallable f [VCls (cls_name c)]
      end
  end.

(** [e.name] for the instance at [l].  [c] is the class of that instance
    (the store records it by name only).  Functions are non-data
    descriptors, so the instance dictionary is consulted first, then the
    classes along the resolution order. *)
Definition getattr_instance (c : class) (l : loc) (name : string)
    (h : gmap loc object) : exn + attr :=
  match h !! l with
  | None => inl AttributeError
  | Some o =>
      match obj_dict o !! name with
      | Some v => inr (AValue v)
      | None =>
          match mro_lookup c name with
          | Some m => inr (bind_instance (obj_class o) (VRef l) m)
          | None => inl AttributeError
          end
      end
  end.

(** [C.name] for the class [c]. *)
Definition getattr_class (c : class) (name : string) : exn + attr :=
  match mro_lookup c name with
  | Some m => inr (bind_class c m)
  | None => inl AttributeError
  end.

(** [super().name] inside an instance method of a class whose base is
    [p]: the lookup starts at [p], skips the instance dictionary, and
    binds the current instance.  The receiver is taken to be an instance
    of a subclass of [p], as it is inside a method of such a class (the
    store records classes by name only, so this is not checked here).
    With [None] as receiver [super] is unbound and the access raises
    [AttributeError]; any other receiver that is not an instance is
    refused with [TypeError]. *)
Definition getattr_super (p : class) (self : value) (name : string)
    (h : gmap loc object) : exn + attr :=
  match self with
  | VRef l =>
      match h !! l with
      | Some o =>
          match mro_lookup p name with
          | Some m => inr (bind_instance (obj_class o) self m)
          | None => inl AttributeError
          end
      | None => inl TypeError
      end
  | VNone => inl AttributeError
  | _ => inl TypeError
  end.

(** [self.name = v] through [object.__setattr__]: the value goes into the
    instance dictionary.  [None], booleans, integers and strings have no
    dictionary and raise [AttributeError].  This is the behaviour for
    ordinary attribute names; the names of the object protocol
    ([__class__], [__dict__], [__weakref__]), which Python guards, are
    outside the model, and no property below assigns to a name that begins
    with two underscores.  The classes of this development are fixed
    definitions, so an assignment to a class object is outside the model
    too; it is reported as [TypeError] and nothing below relies on it. *)
Definition setattr (target : value) (name : string) (v : value)
    (h : gmap loc object) : outcome * gmap loc object :=
  match target with
  | VRef l =>
      match h !! l with
      | Some o =>
          (Returned VNone,
           <[l := Object (obj_class o) (<[name := v]> (obj_dict o))]> h)
      | None => (Raised AttributeError, h)
      end
  | VCls _ => (Raised TypeError, h)
  | _ => (Raised AttributeError, h)
  end.

(** ** Calls *)

(** Calling a function: the number of positional arguments must match the
    parameter list, else [TypeError] before the body runs. *)
Definition call_function (f : method) (args : list value)
    (h : gmap loc object) : outcome * gmap loc object :=
  if decide (length args = length (m_params f))
  then m_body f args h
  else (Raised TypeError, h).

(** Calling the result of an attribute access; plain values of this model
    are not callable. *)
Definition call_attr (a : exn + attr) (args : list value)
    (h : gmap loc object) : outcome * gmap loc object :=
  match a with
  | inl e => (Raised e, h)
  | inr (AValue _) => (Raised TypeError, h)
  | inr (ACallable f bound) => call_function f (bound ++ args) h
  end.

(** [e.name(args)] on the instance at [l] of class [c]. *)
Definition call_method (c : class) (l : loc) (name : string)
    (args : list value) (h : gmap loc object) : outcome * gmap loc object :=
  call_attr (getattr_instance c l name h) args h.

(** [C.name(args)] on the class itself. *)
Definition call_on_class (c : class) (name : string) (args : list value)
    (h : gmap loc object) : outcome * gmap loc object :=
  call_attr (getattr_class c name) args h.

(** [super().name(args)] from a method of a direct subclass of [p]. *)
Definition call_super (p : class) (self : value) (name : string)
    (args : list value) (h : gmap loc object) : outcome * gmap loc object :=
  call_attr (getattr_super p self name h) args h.

(** ** Instantiation *)

(** [C(args)].  [object.__new__] refuses a class whose
    [__abstractmethods__] is not empty; otherwise it allocates an
    instance with an empty dictionary, and [__init__] runs on it.
    [object.__init__] accepts no argument.  An instance whose constructor
    raises stays in the store, where nothing refers to it. *)
Definition instantiate (c : class) (args : list value)
    (h : gmap loc object) : outcome * gmap loc object :=
  if decide (abstractmethods c = ∅) then
    let l := fresh (dom h) in
    let h1 := <[l := Object (cls_name c) ∅]> h in
    match mro_lookup c "__init__" with
    | Some (MMethod f) =>
        match call_function f (VRef l :: args) h1 with
        | (Returned VNone, h2) => (Returned (VRef l), h2)
        | (Returned _, h2) => (Raised TypeError, h2)
        | (Raised e, h2) => (Raised e, h2)
        end
    | Some (MAttr _) => (Raised TypeError, h1)
    | None =>
        match args with
        | [] => (Returned (VRef l), h1)
        | _ :: _ => (Raised TypeError, h)
        end
    end
  else (Raised TypeError, h).

(** ** [@dataclass] *)

(** Store the constructor arguments under the field names, in order. *)
Fixpoint assign_fields (self : value) (fields : list string)
    (vals : list value) (h : gmap loc object) : outcome * gmap loc object :=
  match fields, vals with
  | [], [] => (Returned VNone, h)
  | f :: fields', v :: vals' =>
      match setattr self f v h with
      | (Returned _, h') => assign_fields self fields' vals' h'
      | (Raised e, h') => (Raised e, h')
      end
  | _, _ => (Raised TypeError, h)
  end.

(** The [__init__] that [@dataclass] generates for fields without
    defaults: one positional parameter per field after [self], each
    assigned to the attribute of the same name. *)
Definition dataclass_init (fields : list string) : method :=
  Method false InstanceMethod ("self" :: fields)
    (λ args h,
       match args with
       | self :: vals => assign_fields self fields vals h
       | [] => (Raised TypeError, h)
       end).

(** The decorator: the fields are the annotated names, and the generated
    [__init__] is added to the namespace.  The other names the decorator
    generates ([__repr__], [__eq__], [__match_args__],
    [__dataclass_fields__]) and the attributes every object has
    ([__class__], [__dict__], ...) are not modelled: the properties below
    speak of fields and of the instance dictionary, not of names that
    begin with two underscores. *)
Definition dataclass (c : class) : class :=
  Class (cls_name c) (cls_parent c) (cls_abcmeta c)
        (<["__init__" := MMethod (dataclass_init (cls_annotations c))]>
           (cls_namespace c))
        (cls_annotations c).

(** The fields of a data class. *)
Definition fields (c : class) : list string := cls_annotations c.

(** ** The classes of [extension.py] *)

(** [raise NotImplementedError] as a whole body. *)
Definition raise_NotImplementedError : body :=
  λ _ h, (Raised NotImplementedError, h).

(** [pass] as a whole body: the function falls off its end and returns
    [None]. *)
Definition pass : body :=
  λ _ h, (Returned VNone, h).

(** [abc.ABC]: an empty class whose metaclass is [ABCMeta]. *)
Definition ABC : class :=
  Class "ABC" None true ∅ [].

(** [@dataclass class ExtensionResult: data: Any]. *)
Definition ExtensionResult : class :=
  dataclass (Class "ExtensionResult" None false ∅ ["data"]).

(** The seven methods of [PoseVisExtensionBase], each [@abstractmethod];
    the last two are [@classmethod] as well. *)
Definition register_args : method :=
  Method true InstanceMethod ["self"; "parser"] raise_NotImplementedError.

Definition check_enabled : method :=
  Method true InstanceMethod ["self"; "args"] raise_NotImplementedError.

Definition setup : method :=
  Method true InstanceMethod ["self"] pass.

Definition process_frame : method :=
  Method true InstanceMethod ["self"; "frame"] raise_NotImplementedError.

Definition cleanup : method :=
  Method true InstanceMethod ["self"] pass.

Definition draw_overlay : method :=
  Method true ClassMethod ["cls"; "frame"; "result"] raise_NotImplementedError.

Definition check_output : method :=
  Method true ClassMethod ["cls"; "result"] raise_NotImplementedError.

Definition PoseVisExtensionBase : class :=
  Class "PoseVisExtensionBase" (Some ABC) false
    (list_to_map
       [("register_args", MMethod register_args);
        ("check_enabled", MMethod check_enabled);
        ("setup", MMethod setup);
        ("process_frame", MMethod process_frame);
        ("cleanup", MMethod cleanup);
        ("draw_overlay", MMethod draw_overlay);
        ("check_output", MMethod check_output)])
    [].

(** [self.extension_id = extension_id]. *)
Definition set_enabled : method :=
  Method false InstanceMethod ["self"; "extension_id"]
    (λ args h,
       match args with
       | [self; extension_id] => setattr self "extension_id" extension_id h
       | _ => (Raised TypeError, h)
       end).

(** [PoseVisExtension] annotates [extension_id] without binding it, and
    defines [set_enabled]. *)
Definition PoseVisExtension : class :=
  Class "PoseVisExtension" (Some PoseVisExtensionBase) false
    {[ "set_enabled" := MMethod set_enabled ]}
    ["extension_id"].

(** The seven operations of the contract. *)
Definition contract_operations : list string :=
  ["register_args"; "check_enabled"; "setup"; "process_frame"; "cleanup";
   "draw_overlay"; "check_output"].

(** ** Subclassing *)

(** [class name(parent): ...] with the given namespace and no metaclass
    of its own. *)
Definition subclass (name : string) (parent : class)
    (ns : gmap string member) : class :=
  Class name (Some parent) false ns [].

(** [derives kept base c]: [c] is [base], or is reached from it by
    subclassing, and no class below [base] binds a name of [kept]; so [c]
    has those names exactly as [base] left them.  With [kept] empty this
    is plain derivation. *)
Inductive derives (kept : gset string) (base : class) : class → Prop :=
  | derives_here : derives kept base base
  | derives_sub c name meta ns annots :
      derives kept base c →
      (∀ m, m ∈ kept → ns !! m = None) →
      derives kept base (Class name (Some c) meta ns annots).

(** *** Two subclasses to exercise the contract

    They are not part of [extension.py]; they stand for the extensions a
    host would plug in. *)

(** An instance method that hands over to the base:
    [return super().name(...)]. *)
Definition delegating (name : string) (params : list string) : method :=
  Method false InstanceMethod ("self" :: params)
    (λ args h,
       match args with
       | self :: rest => call_super PoseVisExtension self name rest h
       | [] => (Raised TypeError, h)
       end).

(** A class method that hands over to the base:
    [return PoseVisExtension.name(...)]. *)
Definition delegating_classmethod (name : string) (params : list string)
    : method :=
  Method false ClassMethod ("cls" :: params)
    (λ args h,
       match args with
       | _ :: rest => call_on_class PoseVisExtension name rest h
       | [] => (Raised TypeError, h)
       end).

(** A concrete extension: every operation is implemented, each by
    delegation to the base. *)
Definition DelegatingExtension : class :=
  subclass "DelegatingExtension" PoseVisExtension
    (list_to_map
       [("register_args", MMethod (delegating "register_args" ["parser"]));
        ("check_enabled", MMethod (delegating "check_enabled" ["args"]));
        ("setup", MMethod (delegating "setup" []));
        ("process_frame", MMethod (delegating "process_frame" ["frame"]));
        ("cleanup", MMethod (delegating "cleanup" []));
        ("draw_overlay",
         MMethod (delegating_classmethod "draw_overlay" ["frame"; "result"]));
        ("check_output",
         MMethod (delegating_classmethod "check_output" ["result"]))]).

(** The same extension with [cleanup] left out. *)
Definition PartialExtension : class :=
  subclass "PartialExtension" PoseVisExtension
    (delete "cleanup" (cls_namespace DelegatingExtension)).

(** *** Overrides of single operations

    Four more extensions of the same kind, each with one operation of
    its own; like the two above they are not part of [extension.py]. *)

(** [DelegatingExtension] with the operation [m] overridden by [f]. *)
Definition extension_with (name m : string) (f : method) : class :=
  subclass name PoseVisExtension
    (<[m := MMethod f]> (cls_namespace DelegatingExtension)).

(** [def check_enabled(self, args): return args.use_e]. *)
Definition flag_check_enabled : method :=
  Method false InstanceMethod ["self"; "args"]
    (λ args h,
       match args with
       | [_; VRef a] =>
           match h !! a with
           | Some o =>
               match obj_dict o !! "use_e" with
               | Some v => (Returned v, h)
               | None => (Raised AttributeError, h)
               end
           | None => (Raised AttributeError, h)
           end
       | _ => (Raised AttributeError, h)
       end).

Definition FlagExtension : class :=
  extension_with "FlagExtension" "check_enabled" flag_check_enabled.

(** [def check_enabled(self, args):
       if "seen" in self.__dict__: return False
       self.seen = True
       return True]. *)
Definition toggling_check_enabled : method :=
  Method false InstanceMethod ["self"; "args"]
    (λ args h,
       match args with
       | [VRef l; _] =>
           match h !! l with
           | Some o =>
               match obj_dict o !! "seen" with
               | Some _ => (Returned (VBool false), h)
               | None =>
                   match setattr (VRef l) "seen" (VBool true) h with
                   | (Returned _, h') => (Returned (VBool true), h')
                   | (Raised e, h') => (Raised e, h')
                   end
               end
           | None => (Raised AttributeError, h)
           end
       | _ => (Raised AttributeError, h)
       end).

Definition TogglingExtension : class :=
  extension_with "TogglingExtension" "check_enabled" toggling_check_enabled.





(** ** Effects *)

(** A function whose body hands the store back as it received it. *)
Definition preserves_store (f : method) : Prop :=
  ∀ args h, (m_body f args h).2 = h.


(** ** Attribute names *)

(** Names that begin with two underscores: the special names of the
    object protocol are among them. *)
Definition is_dunder (name : string) : bool := String.prefix "__" name.

(** ** Values that cannot be called *)

(** [None], booleans, integers and strings: calling one raises
    [TypeError] in Python whatever the arguments. *)
Definition is_data (v : value) : bool :=
  match v with
  | VNone | VBool _ | VInt _ | VStr _ => true
  | VRef _ | VCls _ => false
  end.

(** ** Sequences of calls *)

(** [e.set_enabled(i1); ...; e.set_enabled(ik)] on the instance at [l] of
    class [c]: the outcomes, in order, and the final store.  A call that
    raises does not stop the ones after it, so that every outcome can be
    inspected. *)
Fixpoint set_enabled_calls (c : class) (l : loc) (ids : list Z)
    (h : gmap loc object) : list outcome * gmap loc object :=
  match ids with
  | [] => ([], h)
  | i :: ids' =>
      let '(r, h') := call_method c l "set_enabled" [VInt i] h in
      let '(rs, h'') := set_enabled_calls c l ids' h' in
      (r :: rs, h'')
  end.

(** The value of [e.extension_id], if the access succeeds with one. *)
Definition extension_id (c : class) (l : loc) (h : gmap loc object)
    : exn + attr :=
  getattr_instance c l "extension_id" h.

(** * Properties *)

(** ** Derivation *)

Section Derivation.
Context (kept : gset string) (base : class).

(** A kept name resolves on the derived class as it does on the base. *)
Lemma derives_lookup (c : class) (m : string) :
  derives kept base c → m ∈ kept → mro_lookup c m = mro_lookup base m.
Proof.
  induction 1 as [|c name meta ns annots _ IH Hns]; intros Hm; [done|].
  cbn. rewrite (Hns m Hm). by apply IH.
Qed.

(** The metaclass of the base is the metaclass of everything below. *)
Lemma derives_abcmeta (c : class) :
  derives kept base c → uses_abcmeta base = true → uses_abcmeta c = true.
Proof.
  induction 1 as [|c name meta ns annots _ IH _]; intros Hb; [done|].
  cbn. rewrite (IH Hb). apply orb_true_r.
Qed.

(** Keeping more names is keeping fewer. *)
Lemma derives_weaken (kept' : gset string) (c : class) :
  kept' ⊆ kept → derives kept base c → derives kept' base c.
Proof.
  intros Hsub. induction 1 as [|c name meta ns annots _ IH Hns].
  - constructor.
  - constructor; [exact IH|]. intros m Hm. apply Hns. set_solver.
Qed.
End Derivation.

(** ** Abstract names *)

(** Unfolding of [abstractmethods] on a class with a base. *)
Lemma abstractmethods_sub name p meta ns annots :
  abstractmethods (Class name (Some p) meta ns annots) =
  if uses_abcmeta (Class name (Some p) meta ns annots) then
    dom (filter (λ kv, member_abstract kv.2 = true) ns)
    ∪ filter (λ m, resolves_abstract (Class name (Some p) meta ns annots) m = true)
             (abstractmethods p)
  else ∅.
Proof. reflexivity. Qed.

(** A name the namespace binds to something abstract is abstract. *)
Lemma elem_of_own_abstracts (ns : gmap string member) (m : string) (x : member) :
  ns !! m = Some x → member_abstract x = true →
  m ∈ dom (filter (λ kv, member_abstract kv.2 = true) ns).
Proof.
  intros Hm Hx. apply elem_of_dom. exists x.
  by apply map_lookup_filter_Some.
Qed.

(** Below a base whose metaclass is [ABCMeta], a name that resolves to
    something abstract is among the abstract names as soon as it is one
    of the base's: subclassing cannot lose it. *)
Lemma abstract_name_survives (base c : class) (m : string) :
  uses_abcmeta base = true →
  (resolves_abstract base m = true → m ∈ abstractmethods base) →
  derives ∅ base c →
  resolves_abstract c m = true → m ∈ abstractmethods c.
Proof.
  intros Hmeta Hbase Hder. induction Hder as [|c name meta ns annots Hder IH _].
  - exact Hbase.
  - intros Hres. rewrite abstractmethods_sub.
    assert (uses_abcmeta (Class name (Some c) meta ns annots) = true) as ->.
    { cbn. rewrite (derives_abcmeta _ _ _ Hder Hmeta). apply orb_true_r. }
    destruct (ns !! m) as [x|] eqn:Hm.
    + apply elem_of_union_l. apply (elem_of_own_abstracts _ _ x); [done|].
      unfold resolves_abstract in Hres. cbn in Hres. by rewrite Hm in Hres.
    + apply elem_of_union_r. apply elem_of_filter. split; [done|].
      apply IH. unfold resolves_abstract in *. cbn in Hres.
      by rewrite Hm in Hres.
Qed.

(** A class with an abstract name cannot be instantiated. *)
Lemma abstract_not_instantiable (c : class) (m : string) args h :
  m ∈ abstractmethods c → instantiate c args h = (Raised TypeError, h).
Proof.
  intros Hm. unfold instantiate. case_decide as He; [|done].
  rewrite He in Hm. set_solver.
Qed.

(** The abstract names of the contract. *)
Lemma abstractmethods_PoseVisExtensionBase :
  abstractmethods PoseVisExtensionBase = list_to_set contract_operations.
Proof. vm_compute. reflexivity. Qed.

Lemma abstractmethods_PoseVisExtension :
  abstractmethods PoseVisExtension = list_to_set contract_operations.
Proof. vm_compute. reflexivity. Qed.

(** On the base, a name resolves to something abstract exactly when it is
    one of the seven operations. *)
Lemma resolves_abstract_base (m : string) :
  resolves_abstract PoseVisExtensionBase m = true ↔ m ∈ contract_operations.
Proof.
  unfold resolves_abstract, contract_operations. cbn.
  split.
  - intros H.
    destruct (decide (m ∈ ["register_args"; "check_enabled"; "setup";
                            "process_frame"; "cleanup"; "draw_overlay";
                            "check_output"])) as [|Hn]; [done|].
    exfalso. rewrite !not_elem_of_cons in Hn.
    destruct Hn as (?&?&?&?&?&?&?&_).
    rewrite !lookup_insert_ne in H by done. by rewrite lookup_empty in H.
  - rewrite !elem_of_cons, elem_of_nil.
    intros [->|[->|[->|[->|[->|[->|[->|[]]]]]]]]; by vm_compute.
Qed.

(** A name the base resolves is resolved by every class below it. *)
Lemma derives_resolves (base c : class) (m : string) :
  derives ∅ base c → is_Some (mro_lookup base m) → is_Some (mro_lookup c m).
Proof.
  induction 1 as [|c name meta ns annots _ IH _]; intros Hb; [done|].
  cbn. destruct (ns !! m); [by eexists|]. by apply IH.
Qed.

(** ** Instantiation of extension types *)

(** C1. Every concrete extension type implements the seven contract
    operations, and a type that lacks one cannot be instantiated.  For a
    class [c] derived from [PoseVisExtensionBase]: if some operation [m] is
    defined by no class between [c] and the base, then [c(args)] raises
    [TypeError] and produces no object, whatever the arguments and the
    store; and if [c(args)] does return, every one of the seven operations
    resolves on [c] to a definition that is not abstract. *)
Theorem missing_operation_not_instantiable
    (c : class) (args : list value) (h : gmap loc object) :
  derives ∅ PoseVisExtensionBase c →
  (∀ m, m ∈ contract_operations →
        derives {[m]} PoseVisExtensionBase c →
        instantiate c args h = (Raised TypeError, h))
  ∧ (∀ v h', instantiate c args h = (Returned v, h') →
        ∀ m, m ∈ contract_operations →
          ∃ x, mro_lookup c m = Some x ∧ member_abstract x = false).
Proof.
  intros Hder.
  assert (∀ m, resolves_abstract c m = true → m ∈ abstractmethods c) as Hsurv.
  { intros m. apply (abstract_name_survives PoseVisExtensionBase); [done| |done].
    rewrite resolves_abstract_base, abstractmethods_PoseVisExtensionBase.
    by rewrite elem_of_list_to_set. }
  split.
  - intros m Hm Hkeep. apply (abstract_not_instantiable c m).
    apply Hsurv. unfold resolves_abstract.
    rewrite (derives_lookup _ _ _ _ Hkeep) by set_solver.
    by apply resolves_abstract_base.
  - intros v h' Hinst m Hm.
    destruct (derives_resolves _ _ m Hder) as [x Hx].
    { apply resolves_abstract_base in Hm. unfold resolves_abstract in Hm.
      destruct (mro_lookup PoseVisExtensionBase m); [by eexists|done]. }
    exists x. split; [done|].
    destruct (member_abstract x) eqn:Hax; [|done].
    rewrite (abstract_not_instantiable c m) in Hinst; [done|].
    apply Hsurv. unfold resolves_abstract. by rewrite Hx.
Qed.

(** [PartialExtension] derives from the contract and leaves [cleanup] as
    the contract declared it. *)
Lemma PartialExtension_derives (kept : gset string) :
  kept ⊆ {["cleanup"]} → derives kept PoseVisExtensionBase PartialExtension.
Proof.
  intros Hk. apply (derives_weaken {["cleanup"]}); [done|].
  unfold PartialExtension, subclass, PoseVisExtension.
  repeat (apply derives_sub; [|intros m ->%elem_of_singleton; by vm_compute]).
  apply derives_here.
Qed.

Lemma missing_operation_not_instantiable_witness :
  instantiate PartialExtension [] ∅ = (Raised TypeError, ∅).
Proof.
  refine (proj1 (missing_operation_not_instantiable PartialExtension [] ∅ _)
                "cleanup" _ _).
  - apply PartialExtension_derives. set_solver.
  - unfold contract_operations. set_solver.
  - by apply PartialExtension_derives.
Defined.

(** ** [ExtensionResult] *)

Lemma abstractmethods_ExtensionResult : abstractmethods ExtensionResult = ∅.
Proof. by vm_compute. Qed.

Lemma ExtensionResult_lookup (name : string) :
  mro_lookup ExtensionResult name =
  if decide (name = "__init__") then Some (MMethod (dataclass_init ["data"]))
  else None.
Proof.
  unfold ExtensionResult, dataclass. cbn -[dataclass_init].
  case_decide as Hn.
  - subst. by rewrite lookup_insert_eq.
  - rewrite lookup_insert_ne by done. by rewrite lookup_empty.
Qed.

(** C5. [ExtensionResult] has exactly one attribute, the payload.
    [ExtensionResult(d)] returns a new object whose dictionary is
    [{data: d}] and leaves the rest of the store alone; reading [data] on
    it gives [d] back, for every payload [d]; [data] is the only field of
    the class, and the only attribute the instance holds. *)
Theorem ExtensionResult_data (d : value) (h : gmap loc object) :
  let l := fresh (dom h) in
  let h' := <[l := Object "ExtensionResult" {["data" := d]}]> h in
  h !! l = None
  ∧ instantiate ExtensionResult [d] h = (Returned (VRef l), h')
  ∧ getattr_instance ExtensionResult l "data" h' = inr (AValue d)
  ∧ fields ExtensionResult = ["data"]
  ∧ (∃ o, h' !! l = Some o
          ∧ obj_class o = "ExtensionResult"
          ∧ dom (obj_dict o) = {["data"]}
          ∧ ∀ name, name ≠ "data" → obj_dict o !! name = None).
Proof.
  intros l h'.
  assert (h !! l = None) as Hfresh.
  { apply not_elem_of_dom. apply is_fresh. }
  split; [done|]. split; [|split; [|split]].
  - unfold instantiate. rewrite decide_True by apply abstractmethods_ExtensionResult.
    rewrite ExtensionResult_lookup, decide_True by done.
    fold l. unfold call_function, dataclass_init. cbn.
    rewrite lookup_insert_eq. cbn. rewrite insert_insert_eq.
    by rewrite insert_empty.
  - unfold getattr_instance, h'. rewrite lookup_insert_eq. cbn.
    by rewrite lookup_singleton_eq.
  - reflexivity.
  - eexists. split; [apply lookup_insert_eq|]. cbn [obj_class obj_dict].
    split; [done|]. split; [apply dom_singleton_L|].
    intros name Hd. by apply lookup_singleton_ne.
Qed.

(** ** The extension id *)

Lemma PoseVisExtension_lookup (name : string) :
  mro_lookup PoseVisExtension name =
  if decide (name = "set_enabled") then Some (MMethod set_enabled)
  else mro_lookup PoseVisExtensionBase name.
Proof.
  unfold PoseVisExtension. cbn -[set_enabled PoseVisExtensionBase mro_lookup].
  change (mro_lookup (Class ?n (Some ?p) ?b ?ns ?a) name)
    with (match ns !! name with Some m => Some m | None => mro_lookup p name end).
  case_decide as Hn.
  - subst. by rewrite lookup_singleton_eq.
  - by rewrite lookup_singleton_ne.
Qed.

(** Names that are not contract operations do not resolve on the base. *)
Lemma PoseVisExtensionBase_lookup_None (name : string) :
  name ∉ contract_operations → mro_lookup PoseVisExtensionBase name = None.
Proof.
  unfold contract_operations. rewrite !not_elem_of_cons.
  intros (?&?&?&?&?&?&?&_). cbn.
  rewrite !lookup_insert_ne by done. by rewrite lookup_empty.
Qed.

Section SetEnabled.
Context (c : class) (l : loc) (o : object).
Hypothesis Hder : derives {["set_enabled"]} PoseVisExtension c.
Hypothesis Hplain : obj_dict o !! "set_enabled" = None.

(** One call, whatever the argument (the [int] annotation is not
    enforced) and whatever the instance holds already. *)
Lemma call_set_enabled (v : value) (h : gmap loc object) :
  h !! l = Some o →
  call_method c l "set_enabled" [v] h =
  (Returned VNone,
   <[l := Object (obj_class o) (<["extension_id" := v]> (obj_dict o))]> h).
Proof using Hder Hplain.
  intros Hl. unfold call_method, getattr_instance.
  rewrite Hl, Hplain.
  rewrite (derives_lookup _ _ _ _ Hder) by set_solver.
  rewrite PoseVisExtension_lookup, decide_True by done.
  cbn. unfold call_function, set_enabled, setattr. cbn.
  by rewrite Hl.
Qed.

(** Reading the id back after it was stored. *)
Lemma extension_id_stored (v : value) (d : gmap string value)
    (h : gmap loc object) :
  extension_id c l (<[l := Object (obj_class o) (<["extension_id" := v]> d)]> h)
  = inr (AValue v).
Proof.
  unfold extension_id, getattr_instance.
  rewrite lookup_insert_eq. cbn. by rewrite lookup_insert_eq.
Qed.
End SetEnabled.

(** C2. [set_enabled] is a direct assignment.  On a live instance of any
    class that has [set_enabled] as [PoseVisExtension] defines it, and
    for every integer [i], the call [e.set_enabled(i)] returns [None], and
    afterwards [e.extension_id] is [i]. *)
Theorem set_enabled_assigns
    (c : class) (l : loc) (o : object) (i : Z) (h : gmap loc object) :
  derives {["set_enabled"]} PoseVisExtension c →
  h !! l = Some o →
  obj_dict o !! "set_enabled" = None →
  ∃ h', call_method c l "set_enabled" [VInt i] h = (Returned VNone, h')
        ∧ extension_id c l h' = inr (AValue (VInt i)).
Proof.
  intros Hder Hl Hplain. eexists. split.
  - by apply (call_set_enabled c l o).
  - apply extension_id_stored.
Qed.

(** [DelegatingExtension] derives from [PoseVisExtension] and defines
    nothing but the seven operations. *)
Lemma DelegatingExtension_derives (kept : gset string) :
  (∀ m, m ∈ kept → m ∉ contract_operations) →
  derives kept PoseVisExtension DelegatingExtension.
Proof.
  intros Hk. unfold DelegatingExtension, subclass.
  apply derives_sub; [apply derives_here|].
  intros m Hm. specialize (Hk m Hm). revert Hk.
  unfold contract_operations. rewrite !not_elem_of_cons.
  intros (?&?&?&?&?&?&?&_). cbn.
  rewrite !lookup_insert_ne by done. apply lookup_empty.
Qed.

Lemma set_enabled_assigns_witness :
  ∃ h', call_method DelegatingExtension 1 "set_enabled" [VInt 0]
          {[1%positive := Object "DelegatingExtension" ∅]}
        = (Returned VNone, h')
        ∧ extension_id DelegatingExtension 1 h' = inr (AValue (VInt 0)).
Proof.
  apply (set_enabled_assigns DelegatingExtension 1
           (Object "DelegatingExtension" ∅) 0).
  - apply DelegatingExtension_derives.
    intros m ->%elem_of_singleton.
    apply (bool_decide_eq_false_1 (_ ∈ contract_operations)). by vm_compute.
  - reflexivity.
  - reflexivity.
Defined.

(** C10. [set_enabled] writes [extension_id] and nothing else, and asks
    for nothing.  For any non-empty sequence of calls
    [set_enabled(i1); ...; set_enabled(ik)] on a live instance, whatever it
    held before: every call returns [None]; afterwards [extension_id] is
    the last argument; every other attribute of the instance is what it
    was, as is its class; and every other object of the store is
    untouched. *)
Theorem set_enabled_calls_frame
    (c : class) (l : loc) (ids : list Z) (i : Z) :
  derives {["set_enabled"]} PoseVisExtension c →
  last ids = Some i →
  ∀ (o : object) (h : gmap loc object),
  h !! l = Some o →
  obj_dict o !! "set_enabled" = None →
  let h' := <[l := Object (obj_class o)
                      (<["extension_id" := VInt i]> (obj_dict o))]> h in
  set_enabled_calls c l ids h = (replicate (length ids) (Returned VNone), h')
  ∧ extension_id c l h' = inr (AValue (VInt i))
  ∧ (∃ o', h' !! l = Some o'
           ∧ obj_class o' = obj_class o
           ∧ ∀ name, name ≠ "extension_id" →
                     obj_dict o' !! name = obj_dict o !! name)
  ∧ (∀ l', l' ≠ l → h' !! l' = h !! l').
Proof.
  intros Hder Hlast o h Hl Hplain h'.
  split; [|split; [|split]].
  - subst h'. revert o h Hl Hplain.
    induction ids as [|i1 ids' IH]; intros o h Hl Hplain; [done|].
    cbn [set_enabled_calls length replicate].
    rewrite (call_set_enabled c l o Hder Hplain _ _ Hl).
    destruct ids' as [|i2 ids''].
    + cbn in Hlast. injection Hlast as ->. done.
    + set (o1 := Object (obj_class o) (<["extension_id" := VInt i1]> (obj_dict o))).
      rewrite (IH Hlast o1 (<[l := o1]> h)).
      * cbn [obj_class obj_dict o1]. by rewrite !insert_insert_eq.
      * apply lookup_insert_eq.
      * cbn. by rewrite lookup_insert_ne.
  - apply extension_id_stored.
  - eexists. split; [apply lookup_insert_eq|]. split; [done|].
    intros name Hname. cbn. by rewrite lookup_insert_ne.
  - intros l' Hl'. subst h'. by rewrite lookup_insert_ne.
Qed.

Lemma set_enabled_calls_frame_witness :
  let o := Object "DelegatingExtension" {["extension_id" := VInt 7]} in
  let h' := <[1%positive := Object "DelegatingExtension"
                (<["extension_id" := VInt 2]> {["extension_id" := VInt 7]})]>
              {[1%positive := o]} in
  set_enabled_calls DelegatingExtension 1 [0; 1; 2]%Z {[1%positive := o]}
  = (replicate 3 (Returned VNone), h').
Proof.
  intros o h'.
  refine (proj1 (set_enabled_calls_frame DelegatingExtension 1 [0; 1; 2]%Z 2
                   _ _ o {[1%positive := o]} _ _)).
  - apply DelegatingExtension_derives.
    intros m ->%elem_of_singleton.
    apply (bool_decide_eq_false_1 (_ ∈ contract_operations)). by vm_compute.
  - reflexivity.
  - reflexivity.
  - reflexivity.
Defined.

(** ** Bodies that leave the store alone *)

Lemma call_function_preserves (f : method) args h :
  preserves_store f → (call_function f args h).2 = h.
Proof. intros Hf. unfold call_function. case_decide; [apply Hf|done]. Qed.

Lemma call_attr_preserves (a : exn + attr) args h :
  (∀ f bound, a = inr (ACallable f bound) → preserves_store f) →
  (call_attr a args h).2 = h.
Proof.
  intros Ha. destruct a as [e|[v|f bound]]; [done|done|].
  cbn. apply call_function_preserves. by eapply Ha.
Qed.

(** Each contract operation is, on the base, an abstract function whose
    whole body is [raise NotImplementedError] or [pass]. *)
Lemma contract_operation_member (m : string) :
  m ∈ contract_operations →
  ∃ f, mro_lookup PoseVisExtensionBase m = Some (MMethod f)
       ∧ is_abstract f = true
       ∧ (m_body f = raise_NotImplementedError ∨ m_body f = pass).
Proof.
  unfold contract_operations. rewrite !elem_of_cons, elem_of_nil.
  intros [->|[->|[->|[->|[->|[->|[->|[]]]]]]]];
    eexists; (split; [by vm_compute|]); split; auto.
Qed.

Lemma contract_operation_preserves (m : string) (f : method) :
  m ∈ contract_operations →
  mro_lookup PoseVisExtensionBase m = Some (MMethod f) →
  preserves_store f.
Proof.
  intros Hm Hf. destruct (contract_operation_member m Hm) as (g & Hg & _ & Hb).
  rewrite Hg in Hf. injection Hf as <-. intros args h.
  by destruct Hb as [-> | ->].
Qed.

(** An operation of the contract, invoked on an instance the way
    [PoseVisExtension] has it, leaves the whole store as it was, whatever
    the arguments. *)
Lemma inherited_operation_preserves (m : string) (self : value) args h :
  m ∈ contract_operations →
  (call_super PoseVisExtension self m args h).2 = h.
Proof.
  intros Hm. unfold call_super. apply call_attr_preserves.
  intros f bound. unfold getattr_super.
  destruct self as [| | | |l|]; try done.
  destruct (h !! l) as [o|]; [|done].
  rewrite PoseVisExtension_lookup.
  case_decide as Hn.
  { subst. exfalso. revert Hm.
    apply (bool_decide_eq_false_1 (_ ∈ contract_operations)). by vm_compute. }
  destruct (mro_lookup PoseVisExtensionBase m) as [[g|v]|] eqn:Hg; [|done|done].
  pose proof (contract_operation_preserves m g Hm Hg) as Hp.
  cbn. destruct (m_kind g); intros [= <- _]; exact Hp.
Qed.

(** Against C3 as stated: once stored, the id is not write-once, a second
    [set_enabled] replaces it.  An instance of [DelegatingExtension] that is given the id [0] and
    then the id [1] ends with the id [1]. *)
Lemma extension_id_reassigned :
  let h0 : gmap loc object := {[1%positive := Object "DelegatingExtension" ∅]} in
  let h1 := (call_method DelegatingExtension 1 "set_enabled" [VInt 0] h0).2 in
  let h2 := (call_method DelegatingExtension 1 "set_enabled" [VInt 1] h1).2 in
  extension_id DelegatingExtension 1 h1 = inr (AValue (VInt 0))
  ∧ extension_id DelegatingExtension 1 h2 = inr (AValue (VInt 1))
  ∧ extension_id DelegatingExtension 1 h2 ≠ extension_id DelegatingExtension 1 h1.
Proof.
  intros h0 h1 h2.
  assert (extension_id DelegatingExtension 1 h1 = inr (AValue (VInt 0))) as E1
    by by vm_compute.
  assert (extension_id DelegatingExtension 1 h2 = inr (AValue (VInt 1))) as E2
    by by vm_compute.
  rewrite E1, E2. by repeat split.
Qed.

(** C3, as the code has it. Once [set_enabled(i)] has stored the id, none
    of the seven contract operations, as [PoseVisExtension] inherits
    them, changes it: each leaves the whole store untouched, whatever its
    arguments.  [set_enabled] itself is the one operation of the class
    that writes the id, and it is not guarded: a later [set_enabled(j)]
    succeeds and the id is then [j]. *)
Theorem extension_id_changed_only_by_set_enabled
    (c : class) (l : loc) (o : object) (i : Z) (h : gmap loc object) :
  derives {["set_enabled"]} PoseVisExtension c →
  h !! l = Some o →
  obj_dict o !! "set_enabled" = None →
  let h1 := (call_method c l "set_enabled" [VInt i] h).2 in
  extension_id c l h1 = inr (AValue (VInt i))
  ∧ (∀ m args, m ∈ contract_operations →
       extension_id c l (call_super PoseVisExtension (VRef l) m args h1).2
       = inr (AValue (VInt i)))
  ∧ (∀ j, ∃ h2, call_method c l "set_enabled" [VInt j] h1 = (Returned VNone, h2)
                ∧ extension_id c l h2 = inr (AValue (VInt j))).
Proof.
  intros Hder Hl Hplain h1.
  assert (h1 = <[l := Object (obj_class o)
                   (<["extension_id" := VInt i]> (obj_dict o))]> h) as Hh1.
  { unfold h1. by rewrite (call_set_enabled c l o Hder Hplain _ _ Hl). }
  assert (extension_id c l h1 = inr (AValue (VInt i))) as Hid.
  { rewrite Hh1. apply extension_id_stored. }
  split; [done|]. split.
  - intros m args Hm. by rewrite inherited_operation_preserves.
  - intros j. eexists. split.
    + rewrite Hh1.
      apply (call_set_enabled c l
               (Object (obj_class o) (<["extension_id" := VInt i]> (obj_dict o)))).
      * done.
      * cbn. by rewrite lookup_insert_ne.
      * apply lookup_insert_eq.
    + apply extension_id_stored.
Qed.

Lemma extension_id_changed_only_by_set_enabled_witness :
  let h0 : gmap loc object := {[1%positive := Object "DelegatingExtension" ∅]} in
  let h1 := (call_method DelegatingExtension 1 "set_enabled" [VInt 0] h0).2 in
  extension_id DelegatingExtension 1 h1 = inr (AValue (VInt 0)).
Proof.
  intros h0 h1.
  refine (proj1 (extension_id_changed_only_by_set_enabled DelegatingExtension 1
                   (Object "DelegatingExtension" ∅) 0 h0 _ _ _)).
  - apply DelegatingExtension_derives.
    intros m ->%elem_of_singleton.
    apply (bool_decide_eq_false_1 (_ ∈ contract_operations)). by vm_compute.
  - reflexivity.
  - reflexivity.
Defined.

(** C4. Before [set_enabled] is called the id is unset.  A concrete class
    below [PoseVisExtension] that neither binds [extension_id] nor
    defines a constructor can be instantiated; the new instance has an
    empty dictionary, and reading [extension_id] on it raises
    [AttributeError]: the class only annotates the name, so there is no
    default to fall back on. *)
Theorem extension_id_unset_before_set_enabled
    (c : class) (h : gmap loc object) :
  derives {["extension_id"; "__init__"]} PoseVisExtension c →
  abstractmethods c = ∅ →
  let l := fresh (dom h) in
  let h' := <[l := Object (cls_name c) ∅]> h in
  h !! l = None
  ∧ instantiate c [] h = (Returned (VRef l), h')
  ∧ extension_id c l h' = inl AttributeError.
Proof.
  intros Hder Hconcrete l h'.
  assert (∀ m, m ∈ ({["extension_id"; "__init__"]} : gset string) →
               mro_lookup c m = None) as Hnone.
  { intros m Hm. rewrite (derives_lookup _ _ _ _ Hder) by done.
    rewrite PoseVisExtension_lookup.
    apply elem_of_union in Hm as [->%elem_of_singleton| ->%elem_of_singleton];
      (rewrite decide_False by done);
      apply PoseVisExtensionBase_lookup_None;
      apply (bool_decide_eq_false_1 (_ ∈ contract_operations)); by vm_compute. }
  assert (mro_lookup c "__init__" = None) as Hinit.
  { apply Hnone. apply elem_of_union_r. by apply elem_of_singleton. }
  assert (mro_lookup c "extension_id" = None) as Hid.
  { apply Hnone. apply elem_of_union_l. by apply elem_of_singleton. }
  split; [|split].
  - apply not_elem_of_dom. apply is_fresh.
  - unfold instantiate. rewrite decide_True by done.
    by rewrite Hinit.
  - unfold extension_id, getattr_instance, h'.
    rewrite lookup_insert_eq. cbn [obj_dict]. rewrite lookup_empty.
    by rewrite Hid.
Qed.

Lemma extension_id_unset_before_set_enabled_witness :
  instantiate DelegatingExtension [] ∅
  = (Returned (VRef 1), {[1%positive := Object "DelegatingExtension" ∅]})
  ∧ extension_id DelegatingExtension 1
      {[1%positive := Object "DelegatingExtension" ∅]}
    = inl AttributeError.
Proof.
  refine (proj2 (extension_id_unset_before_set_enabled DelegatingExtension ∅ _ _)).
  - apply DelegatingExtension_derives. intros m Hm.
    apply (bool_decide_eq_false_1 (_ ∈ contract_operations)).
    apply elem_of_union in Hm as [->%elem_of_singleton| ->%elem_of_singleton];
      by vm_compute.
  - by vm_compute.
Defined.

(** ** The contract operations as the source defines them *)

Ltac is_operation :=
  first [ apply elem_of_list_to_set | idtac ];
  apply (bool_decide_eq_true_1 (_ ∈ contract_operations)); by vm_compute.

(** A class that overrides none of the operations resolves each of them
    to the base's definition. *)
Lemma kept_operation (kept : gset string) (c : class) (m : string) :
  derives kept PoseVisExtensionBase c → m ∈ kept →
  mro_lookup c m = mro_lookup PoseVisExtensionBase m.
Proof. apply derives_lookup. Qed.

Lemma PoseVisExtension_keeps_operations :
  derives (list_to_set contract_operations) PoseVisExtensionBase PoseVisExtension.
Proof.
  unfold PoseVisExtension. apply derives_sub; [apply derives_here|].
  intros m Hm. apply lookup_singleton_None. intros <-. revert Hm.
  rewrite elem_of_list_to_set.
  apply (bool_decide_eq_false_1 (_ ∈ contract_operations)). by vm_compute.
Qed.

(** C6. [draw_overlay] and [check_output] are class-level: reached through
    the class itself they come with the class already bound, so
    [C.draw_overlay(frame, result)] and [C.check_output(result)] enter the
    body with no instance anywhere (the body of the base then raises
    [NotImplementedError]).  The other five are plain functions on the
    class: nothing is bound, so a call with their declared arguments only
    fails with [TypeError] before the body runs, and the body is entered
    only when an instance is supplied as first argument.  This holds on
    the base and on every class that does not override the operations. *)
Theorem class_level_operations
    (c : class) (h : gmap loc object) (self parser args frame result : value) :
  derives (list_to_set contract_operations) PoseVisExtensionBase c →
  (getattr_class c "draw_overlay"
     = inr (ACallable draw_overlay [VCls (cls_name c)])
   ∧ getattr_class c "check_output"
     = inr (ACallable check_output [VCls (cls_name c)])
   ∧ call_on_class c "draw_overlay" [frame; result] h
     = m_body draw_overlay [VCls (cls_name c); frame; result] h
   ∧ call_on_class c "check_output" [result] h
     = m_body check_output [VCls (cls_name c); result] h)
  ∧ (getattr_class c "register_args" = inr (ACallable register_args [])
     ∧ getattr_class c "check_enabled" = inr (ACallable check_enabled [])
     ∧ getattr_class c "setup" = inr (ACallable setup [])
     ∧ getattr_class c "process_frame" = inr (ACallable process_frame [])
     ∧ getattr_class c "cleanup" = inr (ACallable cleanup []))
  ∧ (call_on_class c "register_args" [parser] h = (Raised TypeError, h)
     ∧ call_on_class c "check_enabled" [args] h = (Raised TypeError, h)
     ∧ call_on_class c "setup" [] h = (Raised TypeError, h)
     ∧ call_on_class c "process_frame" [frame] h = (Raised TypeError, h)
     ∧ call_on_class c "cleanup" [] h = (Raised TypeError, h))
  ∧ (call_on_class c "register_args" [self; parser] h
       = m_body register_args [self; parser] h
     ∧ call_on_class c "check_enabled" [self; args] h
       = m_body check_enabled [self; args] h
     ∧ call_on_class c "setup" [self] h = m_body setup [self] h
     ∧ call_on_class c "process_frame" [self; frame] h
       = m_body process_frame [self; frame] h
     ∧ call_on_class c "cleanup" [self] h = m_body cleanup [self] h).
Proof.
  intros Hder.
  repeat split;
    unfold call_on_class, getattr_class;
    rewrite (kept_operation _ c _ Hder) by is_operation;
    reflexivity.
Qed.

Lemma class_level_operations_witness :
  call_on_class PoseVisExtension "draw_overlay" [VRef 1; VRef 2] ∅
    = (Raised NotImplementedError, ∅)
  ∧ call_on_class PoseVisExtension "setup" [] ∅ = (Raised TypeError, ∅).
Proof.
  pose proof (class_level_operations PoseVisExtension ∅
                VNone VNone VNone (VRef 1) (VRef 2)
                PoseVisExtension_keeps_operations)
    as ((_ & _ & Hdraw & _) & _ & (_ & _ & Hsetup & _) & _).
  split; [exact Hdraw | exact Hsetup].
Defined.

(** *** [check_enabled] and [draw_overlay] in concrete extensions *)

(** Against C7 as stated: the contract accepts a [check_enabled] that is
    not pure.  [TogglingExtension] implements every operation, so it is
    concrete; on one of its instances, two calls of [check_enabled] on
    the same parsed arguments return [True] and then [False], and the
    first call writes an attribute of the extension.  The arguments are
    untouched throughout. *)
Lemma check_enabled_override_not_pure :
  let h0 : gmap loc object :=
    {[1%positive := Object "TogglingExtension" ∅;
      2%positive := Object "Namespace" {["use_e" := VBool true]}]} in
  abstractmethods TogglingExtension = ∅
  ∧ let '(r1, h1) := call_method TogglingExtension 1 "check_enabled" [VRef 2] h0 in
    let '(r2, h2) := call_method TogglingExtension 1 "check_enabled" [VRef 2] h1 in
    r1 = Returned (VBool true)
    ∧ r2 = Returned (VBool false)
    ∧ getattr_instance TogglingExtension 1 "seen" h0 = inl AttributeError
    ∧ getattr_instance TogglingExtension 1 "seen" h1 = inr (AValue (VBool true))
    ∧ h1 !! 2%positive = h0 !! 2%positive.
Proof.
  intros h0. split; [vm_compute; reflexivity|].
  assert (call_method TogglingExtension 1 "check_enabled" [VRef 2] h0
          = (Returned (VBool true),
             <[1%positive := Object "TogglingExtension" {["seen" := VBool true]}]> h0))
    as -> by (vm_compute; reflexivity).
  assert (call_method TogglingExtension 1 "check_enabled" [VRef 2]
            (<[1%positive := Object "TogglingExtension" {["seen" := VBool true]}]> h0)
          = (Returned (VBool false),
             <[1%positive := Object "TogglingExtension" {["seen" := VBool true]}]> h0))
    as -> by (vm_compute; reflexivity).
  repeat split; vm_compute; reflexivity.
Qed.

(** C7, as the code has it. The class does not make [check_enabled] pure;
    it is as pure as its body.  On a live instance of any class, whatever
    [check_enabled] resolves to there (the stub of the source or an
    override): if the body, a function of its arguments and the store,
    leaves the store unchanged, then two calls in
    a row on the same parsed arguments end the same way, with the same
    boolean when one is returned, and after them the store, hence the
    extension and the arguments, is what it was before.  The stub of the
    source is such a body. *)
Theorem check_enabled_pure_when_body_is
    (c : class) (f : method) (l : loc) (o : object) (args : value)
    (h : gmap loc object) :
  mro_lookup c "check_enabled" = Some (MMethod f) →
  preserves_store f →
  h !! l = Some o →
  obj_dict o !! "check_enabled" = None →
  (let '(r1, h1) := call_method c l "check_enabled" [args] h in
   let '(r2, h2) := call_method c l "check_enabled" [args] h1 in
   r2 = r1 ∧ h1 = h ∧ h2 = h)
  ∧ preserves_store check_enabled.
Proof.
  intros Hf Hpure Hl Hplain. split; [|done].
  assert ((call_method c l "check_enabled" [args] h).2 = h) as Hsame.
  { unfold call_method. apply call_attr_preserves.
    intros g bound. unfold getattr_instance. rewrite Hl, Hplain, Hf.
    cbn. destruct (m_kind f); intros [= <- _]; exact Hpure. }
  destruct (call_method c l "check_enabled" [args] h) as [r1 h1] eqn:E1.
  cbn in Hsame. subst h1. by rewrite E1.
Qed.

(** The body of [FlagExtension]'s [check_enabled] only reads. *)
Lemma flag_check_enabled_preserves : preserves_store flag_check_enabled.
Proof.
  intros args h. cbn.
  destruct args as [|a0 [|[| | | |a|] [|? ?]]]; try done.
  destruct (h !! a) as [o|]; [|done].
  by destruct (obj_dict o !! "use_e").
Qed.

Lemma check_enabled_pure_when_body_is_witness :
  let h0 : gmap loc object :=
    {[1%positive := Object "FlagExtension" ∅;
      2%positive := Object "Namespace" {["use_e" := VBool true]}]} in
  let '(r1, h1) := call_method FlagExtension 1 "check_enabled" [VRef 2] h0 in
  let '(r2, h2) := call_method FlagExtension 1 "check_enabled" [VRef 2] h1 in
  r2 = r1 ∧ h1 = h0 ∧ h2 = h0.
Proof.
  intros h0.
  refine (proj1 (check_enabled_pure_when_body_is FlagExtension
                   flag_check_enabled 1 (Object "FlagExtension" ∅) (VRef 2) h0
                   _ _ _ _)).
  - reflexivity.
  - exact flag_check_enabled_preserves.
  - reflexivity.
  - reflexivity.
Defined.





(** ** Delegation to the base *)

(** Through [super()], an operation of the base is called on the live
    instance as the base defines it. *)
Lemma call_super_base (p : class) (l : loc) (o : object) (m : string)
    (args : list value) (h : gmap loc object) :
  h !! l = Some o →
  call_super p (VRef l) m args h =
  call_attr (match mro_lookup p m with
             | Some x => inr (bind_instance (obj_class o) (VRef l) x)
             | None => inl AttributeError
             end) args h.
Proof. intros Hl. unfold call_super, getattr_super. by rewrite Hl. Qed.

(** An instance method of [DelegatingExtension], called on a live instance
    that does not shadow it, is the call it delegates to. *)
Lemma call_delegating (l : loc) (o : object) (m : string)
    (params : list string) (args : list value) (h : gmap loc object) :
  h !! l = Some o →
  obj_dict o !! m = None →
  mro_lookup DelegatingExtension m = Some (MMethod (delegating m params)) →
  length args = length params →
  call_method DelegatingExtension l m args h =
  call_super PoseVisExtension (VRef l) m args h.
Proof.
  intros Hl Hplain Hm Hlen. unfold call_method, getattr_instance.
  rewrite Hl, Hplain, Hm. cbn. unfold call_function. cbn.
  by rewrite decide_True by (f_equal; exact Hlen).
Qed.

(** C9. The bodies the base gives its abstract methods are not alike.
    Reached on a live instance through [super()], [register_args],
    [check_enabled], [process_frame], [draw_overlay] and [check_output]
    raise [NotImplementedError]; [setup] and [cleanup] return [None] and
    do nothing.  So on an instance of [DelegatingExtension], whose every
    operation hands over to the base, [setup()] and [cleanup()] succeed
    silently with the store unchanged, where [register_args],
    [check_enabled] and [process_frame] fail. *)
Theorem base_bodies_inconsistent
    (l : loc) (o : object) (h : gmap loc object)
    (parser args frame result : value) :
  h !! l = Some o →
  (∀ m, m ∈ contract_operations → obj_dict o !! m = None) →
  (call_super PoseVisExtensionBase (VRef l) "register_args" [parser] h
     = (Raised NotImplementedError, h)
   ∧ call_super PoseVisExtensionBase (VRef l) "check_enabled" [args] h
     = (Raised NotImplementedError, h)
   ∧ call_super PoseVisExtensionBase (VRef l) "process_frame" [frame] h
     = (Raised NotImplementedError, h)
   ∧ call_super PoseVisExtensionBase (VRef l) "draw_overlay" [frame; result] h
     = (Raised NotImplementedError, h)
   ∧ call_super PoseVisExtensionBase (VRef l) "check_output" [result] h
     = (Raised NotImplementedError, h))
  ∧ (call_super PoseVisExtensionBase (VRef l) "setup" [] h = (Returned VNone, h)
     ∧ call_super PoseVisExtensionBase (VRef l) "cleanup" [] h
       = (Returned VNone, h))
  ∧ (call_method DelegatingExtension l "setup" [] h = (Returned VNone, h)
     ∧ call_method DelegatingExtension l "cleanup" [] h = (Returned VNone, h)
     ∧ call_method DelegatingExtension l "register_args" [parser] h
       = (Raised NotImplementedError, h)
     ∧ call_method DelegatingExtension l "check_enabled" [args] h
       = (Raised NotImplementedError, h)
     ∧ call_method DelegatingExtension l "process_frame" [frame] h
       = (Raised NotImplementedError, h)).
Proof.
  intros Hl Hplain.
  split; [|split].
  - repeat split; by rewrite (call_super_base _ l o) by done.
  - repeat split; by rewrite (call_super_base _ l o) by done.
  - repeat split;
      (erewrite (call_delegating l o);
       [ by rewrite (call_super_base _ l o) by done
       | done
       | apply Hplain; is_operation
       | reflexivity
       | reflexivity ]).
Qed.

Lemma base_bodies_inconsistent_witness :
  let h0 : gmap loc object := {[1%positive := Object "DelegatingExtension" ∅]} in
  call_method DelegatingExtension 1 "setup" [] h0 = (Returned VNone, h0)
  ∧ call_method DelegatingExtension 1 "process_frame" [VRef 2] h0
    = (Raised NotImplementedError, h0).
Proof.
  intros h0.
  pose proof (base_bodies_inconsistent 1 (Object "DelegatingExtension" ∅) h0
                VNone VNone (VRef 2) VNone eq_refl (λ m _, lookup_empty m))
    as (_ & _ & Hsetup & _ & _ & _ & Hframe).
  split; [exact Hsetup | exact Hframe].
Defined.

(** ** The classes at work *)

Example PoseVisExtensionBase_is_abstract h :
  instantiate PoseVisExtensionBase [] h = (Raised TypeError, h).
Proof. apply (abstract_not_instantiable _ "setup"). by vm_compute. Qed.

Example PoseVisExtension_is_abstract h :
  instantiate PoseVisExtension [] h = (Raised TypeError, h).
Proof. apply (abstract_not_instantiable _ "setup"). by vm_compute. Qed.

Example PartialExtension_abstractmethods :
  abstractmethods PartialExtension = {["cleanup"]}.
Proof. by vm_compute. Qed.

Example DelegatingExtension_instantiates :
  instantiate DelegatingExtension [] ∅
  = (Returned (VRef 1), {[1%positive := Object "DelegatingExtension" ∅]}).
Proof. by vm_compute. Qed.

Example ExtensionResult_wrong_arity :
  instantiate ExtensionResult [] ∅
  = (Raised TypeError, {[1%positive := Object "ExtensionResult" ∅]}).
Proof. by vm_compute. Qed.

Example set_enabled_on_the_class_needs_an_instance :
  call_on_class PoseVisExtension "set_enabled" [VInt 3] ∅ = (Raised TypeError, ∅).
Proof. by vm_compute. Qed.

(** * Further properties of the classes *)

(** ** What the abstract-method check looks at *)

Lemma uses_abcmeta_PoseVisExtensionBase : uses_abcmeta PoseVisExtensionBase = true.
Proof. reflexivity. Qed.

(** X1. Below [PoseVisExtensionBase], the [__abstractmethods__] of a class
    is exactly the set of names that resolve, on that class, to an
    abstract definition: nothing is forgotten along a chain of
    subclasses, and nothing stays in once it is overridden by something
    that is not abstract. *)
Theorem abstractmethods_resolve_abstract (c : class) (m : string) :
  derives ∅ PoseVisExtensionBase c →
  m ∈ abstractmethods c ↔ resolves_abstract c m = true.
Proof.
  intros Hder. split.
  - revert m. induction Hder as [|c name meta ns annots Hder IH _]; intros m.
    + rewrite abstractmethods_PoseVisExtensionBase, elem_of_list_to_set.
      apply resolves_abstract_base.
    + rewrite abstractmethods_sub.
      assert (uses_abcmeta (Class name (Some c) meta ns annots) = true) as ->.
      { cbn. rewrite (derives_abcmeta _ _ _ Hder uses_abcmeta_PoseVisExtensionBase).
        apply orb_true_r. }
      intros [Hown|Hinh]%elem_of_union.
      * apply elem_of_dom in Hown as [x Hx].
        apply map_lookup_filter_Some in Hx as [Hx Habs].
        unfold resolves_abstract. cbn. by rewrite Hx.
      * by apply elem_of_filter in Hinh as [Hres _].
  - apply (abstract_name_survives PoseVisExtensionBase); [done| |done].
    rewrite resolves_abstract_base, abstractmethods_PoseVisExtensionBase.
    by rewrite elem_of_list_to_set.
Qed.

Lemma abstractmethods_resolve_abstract_witness :
  "cleanup" ∈ abstractmethods PartialExtension
  ↔ resolves_abstract PartialExtension "cleanup" = true.
Proof.
  apply (abstractmethods_resolve_abstract PartialExtension "cleanup").
  unfold PartialExtension, subclass, PoseVisExtension.
  do 2 (apply derives_sub; [|intros m Hm; by apply not_elem_of_empty in Hm]).
  apply derives_here.
Defined.

(** A direct subclass of [PoseVisExtension] whose namespace binds the
    seven operations, binds nothing abstract and defines no constructor
    has no abstract name left and resolves no [__init__]. *)
Lemma concrete_subclass (name : string) (ns : gmap string member) :
  (∀ m, m ∈ contract_operations → is_Some (ns !! m)) →
  map_Forall (λ _ x, member_abstract x = false) ns →
  ns !! "__init__" = None →
  abstractmethods (subclass name PoseVisExtension ns) = ∅
  ∧ mro_lookup (subclass name PoseVisExtension ns) "__init__" = None.
Proof.
  intros Hall Hconc Hinit. split.
  - apply elem_of_equiv_empty_L. intros m.
    unfold subclass. rewrite abstractmethods_sub.
    assert (uses_abcmeta (Class name (Some PoseVisExtension) false ns []) = true)
      as -> by reflexivity.
    intros [Hown|Hinh]%elem_of_union.
    + apply elem_of_dom in Hown as [x Hx].
      apply map_lookup_filter_Some in Hx as [Hx Habs]. cbn in Habs.
      by rewrite (Hconc m x Hx) in Habs.
    + apply elem_of_filter in Hinh as [Hres Hm].
      rewrite abstractmethods_PoseVisExtension, elem_of_list_to_set in Hm.
      destruct (Hall m Hm) as [x Hx].
      unfold resolves_abstract in Hres. cbn in Hres. rewrite Hx in Hres.
      by rewrite (Hconc m x Hx) in Hres.
  - unfold subclass. cbn -[PoseVisExtension mro_lookup].
    change (mro_lookup (Class ?n (Some ?p) ?b ?s ?a) "__init__")
      with (match s !! "__init__" with
            | Some x => Some x
            | None => mro_lookup p "__init__"
            end).
    rewrite Hinit, PoseVisExtension_lookup, decide_False by done.
    apply PoseVisExtensionBase_lookup_None.
    apply (bool_decide_eq_false_1 (_ ∈ contract_operations)). by vm_compute.
Qed.

Lemma instantiate_concrete (c : class) (h : gmap loc object) :
  abstractmethods c = ∅ →
  mro_lookup c "__init__" = None →
  instantiate c [] h
  = (Returned (VRef (fresh (dom h))),
     <[fresh (dom h) := Object (cls_name c) ∅]> h).
Proof.
  intros Habs Hinit. unfold instantiate.
  by rewrite decide_True, Hinit by done.
Qed.

(** X2. Implementing the seven operations is all it takes.  A direct
    subclass of [PoseVisExtension] that binds each of the seven names,
    binds nothing abstract and defines no constructor can be instantiated
    without arguments in any store: the call returns a new instance with
    an empty dictionary.  [set_enabled] need not be defined again, since
    [PoseVisExtension] adds no abstract name of its own. *)
Theorem implementing_the_operations_suffices
    (name : string) (ns : gmap string member) (h : gmap loc object) :
  (∀ m, m ∈ contract_operations → is_Some (ns !! m)) →
  map_Forall (λ _ x, member_abstract x = false) ns →
  ns !! "__init__" = None →
  let l := fresh (dom h) in
  h !! l = None
  ∧ instantiate (subclass name PoseVisExtension ns) [] h
    = (Returned (VRef l), <[l := Object name ∅]> h).
Proof.
  intros Hall Hconc Hinit l.
  destruct (concrete_subclass name ns Hall Hconc Hinit) as [Habs Hno].
  split.
  - apply not_elem_of_dom. apply is_fresh.
  - by apply instantiate_concrete.
Qed.

(** The namespace of [DelegatingExtension] meets these conditions. *)
Lemma DelegatingExtension_namespace :
  (∀ m, m ∈ contract_operations →
        is_Some (cls_namespace DelegatingExtension !! m))
  ∧ map_Forall (λ _ x, member_abstract x = false)
               (cls_namespace DelegatingExtension)
  ∧ cls_namespace DelegatingExtension !! "__init__" = None.
Proof.
  split; [|split].
  - unfold contract_operations. intros m.
    rewrite !elem_of_cons, elem_of_nil.
    intros [->|[->|[->|[->|[->|[->|[->|[]]]]]]]]; by eexists.
  - apply (bool_decide_unpack _). by vm_compute.
  - reflexivity.
Qed.

Lemma implementing_the_operations_suffices_witness :
  instantiate DelegatingExtension [] ∅
  = (Returned (VRef 1), {[1%positive := Object "DelegatingExtension" ∅]}).
Proof.
  destruct DelegatingExtension_namespace as (Hall & Hconc & Hinit).
  exact (proj2 (implementing_the_operations_suffices "DelegatingExtension"
                  (cls_namespace DelegatingExtension) ∅ Hall Hconc Hinit)).
Defined.

(** X3. The abstract-method check goes by name only.  A subclass that
    binds one of the operations to [None], a boolean, an integer or a
    string instead of a function (and is otherwise concrete) is accepted:
    it can be instantiated.  The mistake shows only when the operation is
    called on the instance, which raises [TypeError] and leaves the store
    as it was. *)
Theorem abstract_check_is_by_name
    (name : string) (ns : gmap string member) (m : string) (v : value)
    (args : list value) (h : gmap loc object) :
  (∀ m, m ∈ contract_operations → is_Some (ns !! m)) →
  map_Forall (λ _ x, member_abstract x = false) ns →
  ns !! "__init__" = None →
  ns !! m = Some (MAttr v) →
  is_data v = true →
  let c := subclass name PoseVisExtension ns in
  let l := fresh (dom h) in
  let h' := <[l := Object name ∅]> h in
  instantiate c [] h = (Returned (VRef l), h')
  ∧ call_method c l m args h' = (Raised TypeError, h').
Proof.
  intros Hall Hconc Hinit Hm _ c l h'.
  destruct (concrete_subclass name ns Hall Hconc Hinit) as [Habs Hno].
  split.
  - by apply instantiate_concrete.
  - unfold call_method, getattr_instance, h'.
    rewrite lookup_insert_eq. cbn [obj_dict]. rewrite lookup_empty.
    unfold c, subclass. cbn. by rewrite Hm.
Qed.

(** [DelegatingExtension] with [setup = None] in place of the method. *)
Lemma setup_as_value_namespace :
  let ns := <["setup" := MAttr VNone]> (cls_namespace DelegatingExtension) in
  (∀ m, m ∈ contract_operations → is_Some (ns !! m))
  ∧ map_Forall (λ _ x, member_abstract x = false) ns
  ∧ ns !! "__init__" = None
  ∧ ns !! "setup" = Some (MAttr VNone).
Proof.
  intros ns. split; [|split; [|split]].
  - unfold contract_operations. intros m.
    rewrite !elem_of_cons, elem_of_nil.
    intros [->|[->|[->|[->|[->|[->|[->|[]]]]]]]]; by eexists.
  - apply (bool_decide_unpack _). by vm_compute.
  - reflexivity.
  - reflexivity.
Qed.

Lemma abstract_check_is_by_name_witness :
  let ns := <["setup" := MAttr VNone]> (cls_namespace DelegatingExtension) in
  let c := subclass "Careless" PoseVisExtension ns in
  let h' : gmap loc object := {[1%positive := Object "Careless" ∅]} in
  instantiate c [] ∅ = (Returned (VRef 1), h')
  ∧ call_method c 1 "setup" [] h' = (Raised TypeError, h').
Proof.
  intros ns c h'.
  destruct setup_as_value_namespace as (Hall & Hconc & Hinit & Hsetup).
  exact (abstract_check_is_by_name "Careless" ns "setup" VNone [] ∅
           Hall Hconc Hinit Hsetup eq_refl).
Defined.

(** ** More on [ExtensionResult] *)

(** Construction with one argument, in full. *)
Lemma ExtensionResult_construct (d : value) (h : gmap loc object) :
  instantiate ExtensionResult [d] h
  = (Returned (VRef (fresh (dom h))),
     <[fresh (dom h) := Object "ExtensionResult" {["data" := d]}]> h).
Proof.
  unfold instantiate. rewrite decide_True by apply abstractmethods_ExtensionResult.
  rewrite ExtensionResult_lookup, decide_True by done.
  unfold call_function, dataclass_init. cbn.
  rewrite lookup_insert_eq. cbn. rewrite insert_insert_eq.
  by rewrite insert_empty.
Qed.

(** X4. [ExtensionResult] takes exactly one argument: the field has no
    default.  With none, or with two or more, the constructor raises
    [TypeError] and returns no result; every object that was in the store
    is still there, unchanged. *)
Theorem ExtensionResult_arity (args : list value) (h : gmap loc object) :
  length args ≠ 1 →
  (instantiate ExtensionResult args h).1 = Raised TypeError
  ∧ ∀ l, is_Some (h !! l) → (instantiate ExtensionResult args h).2 !! l = h !! l.
Proof.
  intros Hlen. unfold instantiate.
  rewrite decide_True by apply abstractmethods_ExtensionResult.
  rewrite ExtensionResult_lookup, decide_True by done.
  unfold call_function. cbn [m_params dataclass_init length].
  rewrite decide_False by (intros [= E]; by apply Hlen).
  split; [done|]. intros l Hl. cbn.
  apply lookup_insert_ne. intros <-.
  apply (is_fresh (dom h)). by apply elem_of_dom.
Qed.

Lemma ExtensionResult_arity_witness :
  (instantiate ExtensionResult [] ∅).1 = Raised TypeError
  ∧ (instantiate ExtensionResult [VInt 1; VInt 2] ∅).1 = Raised TypeError.
Proof.
  split.
  - apply (ExtensionResult_arity [] ∅). cbn. lia.
  - apply (ExtensionResult_arity [VInt 1; VInt 2] ∅). cbn. lia.
Defined.

(** X5. A result is an ordinary mutable object: the data class is not
    frozen and has no slots.  After [r = ExtensionResult(d)], the
    assignment [r.name = v] succeeds for every ordinary attribute name
    (one that does not begin with two underscores); the attribute then
    reads [v]; [r.data] reads [v] when the name is [data] and still [d]
    otherwise; no other object changes. *)
Theorem ExtensionResult_is_mutable
    (d v : value) (name : string) (h : gmap loc object) :
  is_dunder name = false →
  let l := fresh (dom h) in
  let h' := (instantiate ExtensionResult [d] h).2 in
  ∃ h'', setattr (VRef l) name v h' = (Returned VNone, h'')
         ∧ getattr_instance ExtensionResult l name h'' = inr (AValue v)
         ∧ getattr_instance ExtensionResult l "data" h''
           = inr (AValue (if decide (name = "data") then v else d))
         ∧ ∀ l', l' ≠ l → h'' !! l' = h !! l'.
Proof.
  intros _ l h'. unfold h'. rewrite ExtensionResult_construct. cbn [snd].
  fold l. unfold setattr. rewrite lookup_insert_eq. cbn [obj_class obj_dict].
  eexists. split; [reflexivity|]. rewrite insert_insert_eq.
  unfold getattr_instance. rewrite lookup_insert_eq. cbn [obj_dict].
  split; [by rewrite lookup_insert_eq|]. split.
  - case_decide as Hn.
    + subst. by rewrite lookup_insert_eq.
    + rewrite lookup_insert_ne by done. by rewrite lookup_singleton_eq.
  - intros l' Hl'. by rewrite lookup_insert_ne.
Qed.

Lemma ExtensionResult_is_mutable_witness :
  let h' := (instantiate ExtensionResult [VInt 5] ∅).2 in
  ∃ h'', setattr (VRef 1) "data" (VInt 6) h' = (Returned VNone, h'')
         ∧ getattr_instance ExtensionResult 1 "data" h'' = inr (AValue (VInt 6)).
Proof.
  intros h'.
  destruct (ExtensionResult_is_mutable (VInt 5) (VInt 6) "data" ∅ eq_refl)
    as (h'' & Hset & Hget & _).
  exists h''. split; [exact Hset | exact Hget].
Defined.

(** X6. Every construction yields a new object.  Two results built one
    after the other sit at different locations, and each keeps its own
    payload: building the second does not disturb the first. *)
Theorem ExtensionResult_instances_distinct (d1 d2 : value) (h : gmap loc object) :
  let '(r1, h1) := instantiate ExtensionResult [d1] h in
  let '(r2, h2) := instantiate ExtensionResult [d2] h1 in
  ∃ l1 l2, r1 = Returned (VRef l1) ∧ r2 = Returned (VRef l2)
           ∧ l1 ≠ l2
           ∧ getattr_instance ExtensionResult l1 "data" h2 = inr (AValue d1)
           ∧ getattr_instance ExtensionResult l2 "data" h2 = inr (AValue d2).
Proof.
  rewrite !ExtensionResult_construct.
  set (l1 := fresh (dom h)).
  set (h1 := <[l1 := Object "ExtensionResult" {["data" := d1]}]> h).
  set (l2 := fresh (dom h1)).
  assert (l1 ≠ l2) as Hne.
  { intros E. apply (is_fresh (dom h1)). fold l2. rewrite <- E.
    unfold h1. rewrite dom_insert_L. by apply elem_of_union_l, elem_of_singleton. }
  exists l1, l2. repeat split; [done| |].
  - unfold getattr_instance. rewrite lookup_insert_ne by done.
    unfold h1. rewrite lookup_insert_eq. cbn [obj_dict].
    by rewrite lookup_singleton_eq.
  - unfold getattr_instance. rewrite lookup_insert_eq. cbn [obj_dict].
    by rewrite lookup_singleton_eq.
Qed.

(** ** More on [set_enabled] *)

(** X7. An instance attribute named [set_enabled] hides the method.  If
    the dictionary of a live instance binds [set_enabled] to [None], a
    boolean, an integer or a string, then [e.set_enabled(v)] raises
    [TypeError] and assigns nothing.  The method is still reachable
    through the class: [C.set_enabled(e, v)] returns [None] and stores [v]
    as the id. *)
Theorem set_enabled_shadowed
    (c : class) (l : loc) (o : object) (w v : value) (h : gmap loc object) :
  derives {["set_enabled"]} PoseVisExtension c →
  h !! l = Some o →
  obj_dict o !! "set_enabled" = Some w →
  is_data w = true →
  call_method c l "set_enabled" [v] h = (Raised TypeError, h)
  ∧ call_on_class c "set_enabled" [VRef l; v] h
    = (Returned VNone,
       <[l := Object (obj_class o) (<["extension_id" := v]> (obj_dict o))]> h).
Proof.
  intros Hder Hl Hshadow _. split.
  - unfold call_method, getattr_instance. by rewrite Hl, Hshadow.
  - unfold call_on_class, getattr_class.
    rewrite (derives_lookup _ _ _ _ Hder) by by apply elem_of_singleton.
    rewrite PoseVisExtension_lookup, decide_True by done.
    cbn. unfold call_function, set_enabled, setattr. cbn.
    by rewrite Hl.
Qed.

Lemma set_enabled_shadowed_witness :
  let h : gmap loc object :=
    {[1%positive := Object "DelegatingExtension"
                      {["set_enabled" := VBool true]}]} in
  call_method DelegatingExtension 1 "set_enabled" [VInt 0] h
  = (Raised TypeError, h).
Proof.
  intros h.
  refine (proj1 (set_enabled_shadowed DelegatingExtension 1
                   (Object "DelegatingExtension" {["set_enabled" := VBool true]})
                   (VBool true) (VInt 0) h _ _ _ _)).
  - apply DelegatingExtension_derives. intros m ->%elem_of_singleton.
    apply (bool_decide_eq_false_1 (_ ∈ contract_operations)). by vm_compute.
  - reflexivity.
  - reflexivity.
  - reflexivity.
Defined.

(** X8. The [int] annotation of [set_enabled] is not enforced.  Whatever
    value is passed, [None], a string or a reference as much as an
    integer, the call returns [None] and [extension_id] then reads that
    value. *)
Theorem set_enabled_ignores_annotation
    (c : class) (l : loc) (o : object) (v : value) (h : gmap loc object) :
  derives {["set_enabled"]} PoseVisExtension c →
  h !! l = Some o →
  obj_dict o !! "set_enabled" = None →
  ∃ h', call_method c l "set_enabled" [v] h = (Returned VNone, h')
        ∧ extension_id c l h' = inr (AValue v).
Proof.
  intros Hder Hl Hplain. eexists. split.
  - by apply (call_set_enabled c l o).
  - apply extension_id_stored.
Qed.

Lemma DelegatingExtension_keeps_set_enabled :
  derives {["set_enabled"]} PoseVisExtension DelegatingExtension.
Proof.
  apply DelegatingExtension_derives. intros m ->%elem_of_singleton.
  apply (bool_decide_eq_false_1 (_ ∈ contract_operations)). by vm_compute.
Qed.

Lemma set_enabled_ignores_annotation_witness :
  ∃ h', call_method DelegatingExtension 1 "set_enabled" [VStr "first"]
          {[1%positive := Object "DelegatingExtension" ∅]}
        = (Returned VNone, h')
        ∧ extension_id DelegatingExtension 1 h' = inr (AValue (VStr "first")).
Proof.
  apply (set_enabled_ignores_annotation DelegatingExtension 1
           (Object "DelegatingExtension" ∅) (VStr "first")).
  - apply DelegatingExtension_keeps_set_enabled.
  - reflexivity.
  - reflexivity.
Defined.

(** X9. [set_enabled] takes exactly one argument besides the instance.
    Called on a live instance with none, or with two or more, it raises
    [TypeError] before the body runs: nothing is assigned and the store
    is unchanged. *)
Theorem set_enabled_arity
    (c : class) (l : loc) (o : object) (args : list value)
    (h : gmap loc object) :
  derives {["set_enabled"]} PoseVisExtension c →
  h !! l = Some o →
  obj_dict o !! "set_enabled" = None →
  length args ≠ 1 →
  call_method c l "set_enabled" args h = (Raised TypeError, h).
Proof.
  intros Hder Hl Hplain Hlen. unfold call_method, getattr_instance.
  rewrite Hl, Hplain.
  rewrite (derives_lookup _ _ _ _ Hder) by by apply elem_of_singleton.
  rewrite PoseVisExtension_lookup, decide_True by done.
  cbn. unfold call_function. cbn [m_params set_enabled length].
  by rewrite decide_False by (intros [= E]; by apply Hlen).
Qed.

Lemma set_enabled_arity_witness :
  call_method DelegatingExtension 1 "set_enabled" [VInt 0; VInt 1]
    {[1%positive := Object "DelegatingExtension" ∅]}
  = (Raised TypeError, {[1%positive := Object "DelegatingExtension" ∅]}).
Proof.
  apply (set_enabled_arity DelegatingExtension 1 (Object "DelegatingExtension" ∅)).
  - apply DelegatingExtension_keeps_set_enabled.
  - reflexivity.
  - reflexivity.
  - cbn. lia.
Defined.

(** X10. Ids are per instance, and the class checks nothing about them.
    For two distinct live instances, [a.set_enabled(i)] and
    [b.set_enabled(j)] can be done in either order with the same final
    store; afterwards [a] reads [i] and [b] reads [j].  Nothing requires
    [i] and [j] to differ: uniqueness of the ids is not enforced here. *)
Theorem set_enabled_instances_independent
    (c1 c2 : class) (l1 l2 : loc) (o1 o2 : object) (i j : Z)
    (h : gmap loc object) :
  derives {["set_enabled"]} PoseVisExtension c1 →
  derives {["set_enabled"]} PoseVisExtension c2 →
  l1 ≠ l2 →
  h !! l1 = Some o1 → obj_dict o1 !! "set_enabled" = None →
  h !! l2 = Some o2 → obj_dict o2 !! "set_enabled" = None →
  let h12 := (call_method c2 l2 "set_enabled" [VInt j]
                (call_method c1 l1 "set_enabled" [VInt i] h).2).2 in
  let h21 := (call_method c1 l1 "set_enabled" [VInt i]
                (call_method c2 l2 "set_enabled" [VInt j] h).2).2 in
  h12 = h21
  ∧ extension_id c1 l1 h12 = inr (AValue (VInt i))
  ∧ extension_id c2 l2 h12 = inr (AValue (VInt j)).
Proof.
  intros Hd1 Hd2 Hne Hl1 Hp1 Hl2 Hp2 h12 h21.
  assert (h12 = <[l2 := Object (obj_class o2)
                    (<["extension_id" := VInt j]> (obj_dict o2))]>
                  (<[l1 := Object (obj_class o1)
                       (<["extension_id" := VInt i]> (obj_dict o1))]> h)) as E12.
  { unfold h12. rewrite (call_set_enabled c1 l1 o1 Hd1 Hp1 _ _ Hl1). cbn [snd].
    rewrite (call_set_enabled c2 l2 o2 Hd2 Hp2); [done|].
    by rewrite lookup_insert_ne. }
  assert (h21 = <[l1 := Object (obj_class o1)
                    (<["extension_id" := VInt i]> (obj_dict o1))]>
                  (<[l2 := Object (obj_class o2)
                       (<["extension_id" := VInt j]> (obj_dict o2))]> h)) as E21.
  { unfold h21. rewrite (call_set_enabled c2 l2 o2 Hd2 Hp2 _ _ Hl2). cbn [snd].
    rewrite (call_set_enabled c1 l1 o1 Hd1 Hp1); [done|].
    by rewrite lookup_insert_ne. }
  split; [|split].
  - rewrite E12, E21. by apply insert_insert_ne.
  - rewrite E12. rewrite insert_insert_ne by done. apply extension_id_stored.
  - rewrite E12. apply extension_id_stored.
Qed.

Lemma set_enabled_instances_independent_witness :
  let h : gmap loc object :=
    {[1%positive := Object "DelegatingExtension" ∅;
      2%positive := Object "DelegatingExtension" ∅]} in
  let h12 := (call_method DelegatingExtension 2 "set_enabled" [VInt 0]
                (call_method DelegatingExtension 1 "set_enabled" [VInt 0] h).2).2 in
  extension_id DelegatingExtension 1 h12 = inr (AValue (VInt 0))
  ∧ extension_id DelegatingExtension 2 h12 = inr (AValue (VInt 0)).
Proof.
  intros h h12.
  refine (proj2 (set_enabled_instances_independent
                   DelegatingExtension DelegatingExtension 1 2
                   (Object "DelegatingExtension" ∅)
                   (Object "DelegatingExtension" ∅) 0 0 h _ _ _ _ _ _ _)).
  - apply DelegatingExtension_keeps_set_enabled.
  - apply DelegatingExtension_keeps_set_enabled.
  - lia.
  - reflexivity.
  - reflexivity.
  - reflexivity.
  - reflexivity.
Defined.

(** ** More on the base's operations *)

(** X11. The operations as the base defines them are inert.  On the base
    and on every class that overrides none of them, a call through the
    class, [C.m(args)], with any arguments at all, never changes the
    store and never hands back a value other than [None]:
    [process_frame] gives no result, [check_enabled] and [check_output]
    no verdict.  The only calls that return are [C.setup(x)] and
    [C.cleanup(x)] with exactly one argument; every other call raises
    [TypeError] or [NotImplementedError]. *)
Theorem base_operations_are_inert
    (c : class) (m : string) (args : list value) (h : gmap loc object) :
  derives (list_to_set contract_operations) PoseVisExtensionBase c →
  m ∈ contract_operations →
  ∃ r, call_on_class c m args h = (r, h)
       ∧ (r = Raised TypeError
          ∨ r = Raised NotImplementedError
          ∨ (r = Returned VNone ∧ (m = "setup" ∨ m = "cleanup")
             ∧ length args = 1)).
Proof.
  intros Hder Hm. unfold call_on_class, getattr_class.
  rewrite (kept_operation _ c _ Hder) by by apply elem_of_list_to_set.
  revert Hm. unfold contract_operations. rewrite !elem_of_cons, elem_of_nil.
  intros [->|[->|[->|[->|[->|[->|[->|[]]]]]]]];
    change (mro_lookup PoseVisExtensionBase _) with (Some (MMethod register_args))
    || change (mro_lookup PoseVisExtensionBase _) with (Some (MMethod check_enabled))
    || change (mro_lookup PoseVisExtensionBase _) with (Some (MMethod setup))
    || change (mro_lookup PoseVisExtensionBase _) with (Some (MMethod process_frame))
    || change (mro_lookup PoseVisExtensionBase _) with (Some (MMethod cleanup))
    || change (mro_lookup PoseVisExtensionBase _) with (Some (MMethod draw_overlay))
    || change (mro_lookup PoseVisExtensionBase _) with (Some (MMethod check_output));
    cbn; unfold call_function; cbn; case_decide as Hlen;
    eexists; (split; [reflexivity|]); auto.
  - right; right. split; [done|]. split; [by left|done].
  - right; right. split; [done|]. split; [by right|done].
Qed.

Lemma base_operations_are_inert_witness :
  ∃ r, call_on_class PoseVisExtension "process_frame" [VNone; VRef 2] ∅ = (r, ∅)
       ∧ (r = Raised TypeError
          ∨ r = Raised NotImplementedError
          ∨ (r = Returned VNone
             ∧ ("process_frame" = "setup" ∨ "process_frame" = "cleanup")
             ∧ length [VNone; VRef 2] = 1)).
Proof.
  apply (base_operations_are_inert PoseVisExtension "process_frame").
  - apply PoseVisExtension_keeps_operations.
  - apply (bool_decide_unpack _). by vm_compute.
Defined.
